(** * react-pbac: the policy evaluation engine

    A shallow embedding of [getAccessPolicy] from
    [src/createAccessControl.tsx] ([can], [canAll], [canAny]) together with
    the data model of [src/types.ts], and the properties of the engine.

    Scope of the model.  An attribute map ([Record<string, any>]) is a
    plain object, modelled by its own enumerable string-keyed properties, a
    finite map from keys to JavaScript primitive values; its prototype is
    [Object.prototype], whose members a property read finds when the
    object has no own property of that name.  Non-primitive values
    (objects, functions) held by an attribute map are outside the model. *)

From Stdlib Require Import Floats.
From stdpp Require Import gmap strings list fin_maps.

Open Scope string_scope.

(** ** JavaScript values and strict equality *)

Module Js.

(** The primitive values an attribute can hold.  Numbers are IEEE-754
    binary64, as in JavaScript. *)
Inductive Value : Type :=
| VUndefined
| VNull
| VBool (b : bool)
| VNumber (f : float)
| VString (s : string).

(** [x === y] on primitives: same type and same value; on numbers the
    IEEE comparison, so [NaN === NaN] is false and [+0 === -0] is true. *)
Definition strict_eq (x y : Value) : bool :=
  match x, y with
  | VUndefined, VUndefined => true
  | VNull, VNull => true
  | VBool a, VBool b => Bool.eqb a b
  | VNumber a, VNumber b => PrimFloat.eqb a b
  | VString a, VString b => String.eqb a b
  | _, _ => false
  end.

(** [Array.prototype.includes] on an array of strings. *)
Definition includes (l : list string) (x : string) : bool :=
  existsb (String.eqb x) l.

(** What a property read of a plain object returns: a primitive, or the
    member of [Object.prototype] of that name (a function; for
    [__proto__] the prototype object itself). *)
Inductive Any : Type :=
| Prim (v : Value)
| Inherited (key : string).

(** [x === y] for a read [x] and a primitive [y]: an object or a
    function is never [===] to a primitive. *)
Definition strict_eq_read (x : Any) (y : Value) : bool :=
  match x with
  | Prim v => strict_eq v y
  | Inherited _ => false
  end.

(** The property names of [Object.prototype] (ECMAScript, with Annex B). *)
Definition object_prototype_keys : list string :=
  [ "constructor"; "hasOwnProperty"; "isPrototypeOf";
    "propertyIsEnumerable"; "toLocaleString"; "toString"; "valueOf";
    "__proto__"; "__defineGetter__"; "__defineSetter__";
    "__lookupGetter__"; "__lookupSetter__" ].

End Js.

Import Js.

(** [Record<string, any>] *)
Abbreviation AttrMap := (gmap string Value).

(** [obj[key]]: the property read.  The own property when there is one;
    else the lookup goes on in the prototype, [Object.prototype]; else
    [undefined]. *)
Definition prop_get (obj : AttrMap) (key : string) : Any :=
  match obj !! key with
  | Some v => Prim v
  | None =>
      if includes object_prototype_keys key then Inherited key
      else Prim VUndefined
  end.

(** ** Data model ([src/types.ts]) *)

Inductive Effect : Type := allow | deny.

(** [TAccessControlStatement]; [conditions] is optional. *)
Record Statement : Type := mkStatement {
  resource : string;
  actions : list string;
  effect : Effect;
  conditions : option (list AttrMap)
}.

(** [TAccessControlPolicy] *)
Definition Policy : Type := list Statement.

(** The third argument of [can]:
    [conditions?: Record<string, any> | Record<string, any>[]]. *)
Inductive ContextArg : Type :=
| NoContext
| OneContext (m : AttrMap)
| ManyContexts (l : list AttrMap).

(** ** The evaluator ([getAccessPolicy]) *)

(** Lines 65-69: [Array.isArray(c) ? c : c ? [c] : []]; an object is
    always truthy. *)
Definition inputConditions (c : ContextArg) : list AttrMap :=
  match c with
  | ManyContexts l => l
  | OneContext m => [m]
  | NoContext => []
  end.

(** Lines 72-74: [policy.filter(stmt => stmt.resource === resource)]. *)
Definition relevantStatements (P : Policy) (res : string) : list Statement :=
  List.filter (fun stmt => String.eqb (resource stmt) res) P.

(** Lines 78-79. *)
Definition actionMatches (stmt : Statement) (action : string) : bool :=
  includes (actions stmt) "*" || includes (actions stmt) action.

(** Lines 96-98: [Object.entries(pc).every(([key, value]) => ic[key] === value)]. *)
Definition entriesMatch (policyCondition inputCondition : AttrMap) : bool :=
  forallb (fun '(key, value) =>
             strict_eq_read (prop_get inputCondition key) value)
          (map_to_list policyCondition).

(** Lines 93-100: [some] over the policy conditions of [some] over the
    input conditions. *)
Definition anyMatch (policyConditions inputs : list AttrMap) : bool :=
  existsb (fun policyCondition =>
             existsb (fun inputCondition =>
                        entriesMatch policyCondition inputCondition) inputs)
          policyConditions.

(** Lines 83-106: the value of [conditionMatches] after the check;
    [stmt.conditions || []] is [default []]. *)
Definition conditionMatches (stmt : Statement) (inputs : list AttrMap) : bool :=
  let policyConditions := default [] (conditions stmt) in
  if (0 <? length policyConditions)%nat then
    if (length inputs =? 0)%nat then false
    else if negb (anyMatch policyConditions inputs) then false
    else true
  else true.

(** Lines 76-119: the [for] loop, with [isAllowed] as accumulator; a
    satisfied [deny] returns at once. *)
Fixpoint can_loop (stmts : list Statement) (action : string)
         (inputs : list AttrMap) (isAllowed : bool) : bool :=
  match stmts with
  | [] => isAllowed
  | stmt :: rest =>
      if negb (actionMatches stmt action) then
        can_loop rest action inputs isAllowed
      else if negb (conditionMatches stmt inputs) then
        can_loop rest action inputs isAllowed
      else
        match effect stmt with
        | deny => false
        | allow => can_loop rest action inputs true
        end
  end.

(** Lines 56-120. *)
Definition can (P : Policy) (res action : string) (c : ContextArg) : bool :=
  can_loop (relevantStatements P res) action (inputConditions c) false.

(** Lines 122-129: [actions.every(action => can(resource, action, conditions))]. *)
Definition canAll (P : Policy) (res : string) (acts : list string)
           (c : ContextArg) : bool :=
  forallb (fun action => can P res action c) acts.

(** Lines 131-138: [actions.some(action => can(resource, action, conditions))]. *)
Definition canAny (P : Policy) (res : string) (acts : list string)
           (c : ContextArg) : bool :=
  existsb (fun action => can P res action c) acts.

(** ** Derived notions used in the statements *)

(** Past the resource filter, a statement reaches its effect when its
    action check passes and its conditions are satisfied. *)
Definition applies (action : string) (inputs : list AttrMap)
           (stmt : Statement) : bool :=
  actionMatches stmt action && conditionMatches stmt inputs.

(** A statement fires for a query when the loop reaches its effect: it is
    selected by [relevantStatements], its action check passes and its
    conditions are satisfied. *)
Definition fires (res action : string) (inputs : list AttrMap)
           (stmt : Statement) : bool :=
  String.eqb (resource stmt) res
  && actionMatches stmt action
  && conditionMatches stmt inputs.

Definition is_deny (stmt : Statement) : bool :=
  match effect stmt with deny => true | allow => false end.

Definition is_allow (stmt : Statement) : bool :=
  match effect stmt with allow => true | deny => false end.

(** The keys named by the condition-sets of a policy. *)
Definition statement_keys (stmt : Statement) : gset string :=
  ⋃ (dom <$> default [] (conditions stmt)).

Definition policy_keys (P : Policy) : gset string :=
  ⋃ (statement_keys <$> P).

(** Two attribute maps agree on a set of keys. *)
Definition agree_on (K : gset string) (m1 m2 : AttrMap) : Prop :=
  ∀ k, k ∈ K → m1 !! k = m2 !! k.

(** ** The wording of the specification, for comparison *)

(** The selection of C1 in the words of the specification: every
    statement whose resource is the queried one or the literal ["*"] is
    selected. *)
Definition spec_selects_star (P : Policy) (res : string) : Prop :=
  ∀ stmt, stmt ∈ P → resource stmt = res ∨ resource stmt = "*" →
          stmt ∈ relevantStatements P res.




(** What the source computes for one pair: every entry of the
    condition-set equals, by [===], the property read of the candidate. *)
Definition read_pair_matches (pc ic : AttrMap) : Prop :=
  ∀ k v, pc !! k = Some v → strict_eq_read (prop_get ic k) v = true.


(** The pair match in the words of the specification: every key of the
    condition-set is present in the candidate with a strictly equal
    value. *)
Definition spec_pair_matches (pc ic : AttrMap) : Prop :=
  ∀ k v, pc !! k = Some v → ∃ w, ic !! k = Some w ∧ strict_eq w v = true.

(** No entry of the condition-set holds [undefined]. *)
Definition no_undefined (pc : AttrMap) : Prop :=
  ∀ k, pc !! k ≠ Some VUndefined.


(** ** Sample data (from the tests and the README) *)

Module Samples.

Definition str_map (l : list (string * string)) : AttrMap :=
  list_to_map (prod_map id VString <$> l).

(** README, "Role-Based Access Control": the ADMIN policy. *)
Definition admin_policy : Policy :=
  [ mkStatement "*" ["*"] allow None ].

(** [index.test.tsx], "should support array-based conditions". *)
Definition post_policy : Policy :=
  [ mkStatement "POST" ["*"] allow
      (Some [ str_map [("status", "published")];
              str_map [("status", "draft"); ("role", "superadmin")] ]);
    mkStatement "POST" ["read"] allow
      (Some [ str_map [("status", "published")];
              str_map [("status", "draft"); ("role", "superadmin")] ]) ].

(** README, "Explicitly deny deleting posts". *)
Definition deny_policy : Policy :=
  [ mkStatement "POST" ["read"; "delete"] allow None;
    mkStatement "POST" ["delete"] deny None ].

End Samples.

(** ** Notions for the properties of the whole policy *)

(** Some deny statement fires, some allow statement fires. *)
Definition denied (P : Policy) (res action : string)
           (inputs : list AttrMap) : bool :=
  existsb (λ s, fires res action inputs s && is_deny s) P.

Definition granted (P : Policy) (res action : string)
           (inputs : list AttrMap) : bool :=
  existsb (λ s, fires res action inputs s && is_allow s) P.

(** [stmt.conditions || []] has length 0. *)
Definition unconditional (stmt : Statement) : bool :=
  match default [] (conditions stmt) with
  | [] => true
  | _ :: _ => false
  end.

(** The same statement with other actions, or other conditions. *)
Definition with_actions (stmt : Statement) (acts : list string) : Statement :=
  mkStatement (resource stmt) acts (effect stmt) (conditions stmt).

Definition with_conditions (stmt : Statement) (pcs : list AttrMap) : Statement :=
  mkStatement (resource stmt) (actions stmt) (effect stmt) (Some pcs).

(** A policy of allow statements only. *)
Definition deny_free (P : Policy) : Prop :=
  ∀ s, s ∈ P → effect s = allow.

(** No condition-set of the policy holds [undefined]. *)
Definition policy_no_undefined (P : Policy) : Prop :=
  ∀ s pc, s ∈ P → pc ∈ default [] (conditions s) → no_undefined pc.

(** ** Unit tests of the model against [index.test.tsx] *)

Example test_allow_matching :
  can [mkStatement "POST" ["read"] allow None] "POST" "read" NoContext = true.
Proof. vm_compute. reflexivity. Qed.

Example test_array_conditions :
  can Samples.post_policy "POST" "delete"
      (OneContext (Samples.str_map [("status", "published")])) = true
  ∧ can Samples.post_policy "POST" "delete"
      (OneContext (Samples.str_map [("status", "draft"); ("role", "superadmin")])) = true
  ∧ can Samples.post_policy "POST" "read"
      (OneContext (Samples.str_map [("status", "draft"); ("role", "user")])) = false
  ∧ can Samples.post_policy "POST" "delete"
      (OneContext (Samples.str_map [("status", "archived")])) = false.
Proof. vm_compute. repeat split; reflexivity. Qed.

Example test_conditions :
  let P := [ mkStatement "POST" ["update"] allow
               (Some [ Samples.str_map [("authorId", "auth-123")] ]) ] in
  can P "POST" "update" (OneContext (Samples.str_map [("authorId", "auth-123")])) = true
  ∧ can P "POST" "update" (OneContext (Samples.str_map [("authorId", "other-user")])) = false
  ∧ can P "POST" "update" NoContext = false.
Proof. vm_compute. repeat split; reflexivity. Qed.

Example test_multiple_condition_keys :
  let P := [ mkStatement "POST" ["update"] allow
               (Some [ Samples.str_map [("authorId", "auth-123"); ("status", "draft")] ]) ] in
  can P "POST" "update"
      (OneContext (Samples.str_map [("authorId", "auth-123"); ("status", "draft")])) = true
  ∧ can P "POST" "update"
      (OneContext (Samples.str_map [("authorId", "auth-123"); ("status", "published")])) = false
  ∧ can P "POST" "update"
      (OneContext (Samples.str_map [("authorId", "auth-123")])) = false.
Proof. vm_compute. repeat split; reflexivity. Qed.

Example test_array_of_contexts :
  let P := [ mkStatement "POST" ["update"] allow
               (Some [ Samples.str_map [("role", "admin")];
                       Samples.str_map [("role", "editor"); ("status", "draft")] ]) ] in
  can P "POST" "update"
      (ManyContexts [ Samples.str_map [("role", "user")];
                      Samples.str_map [("role", "admin")] ]) = true
  ∧ can P "POST" "update"
      (ManyContexts [ Samples.str_map [("role", "user")] ]) = false.
Proof. vm_compute. repeat split; reflexivity. Qed.

(** The ADMIN policy of the README, as this evaluator reads it. *)
Example readme_admin_policy :
  can Samples.admin_policy "POST" "read" NoContext = false
  ∧ can Samples.admin_policy "*" "read" NoContext = true.
Proof. vm_compute. split; reflexivity. Qed.

(** ** The loop as a closed formula *)

Lemma existsb_filter {A} (f g : A → bool) (l : list A) :
  existsb f (List.filter g l) = existsb (λ x, g x && f x) l.
Proof.
  induction l as [|x l IH]; simpl; [done|].
  destruct (g x); simpl; by rewrite IH.
Qed.

Section Characterisation.

Variables (action : string) (inputs : list AttrMap).

(** The early return changes when the loop stops, not what it computes:
    the result is "no applicable deny, and an applicable allow (or the
    accumulator already set)". *)
Lemma can_loop_spec (stmts : list Statement) (acc : bool) :
  can_loop stmts action inputs acc
  = negb (existsb (λ s, applies action inputs s && is_deny s) stmts)
    && (acc || existsb (λ s, applies action inputs s && is_allow s) stmts).
Proof.
  revert acc. induction stmts as [|stmt rest IH]; intros acc; simpl.
  - by rewrite orb_false_r.
  - unfold applies, is_deny, is_allow in *. simpl in *.
    destruct (actionMatches stmt action); simpl; [|apply IH].
    destruct (conditionMatches stmt inputs); simpl; [|apply IH].
    destruct (effect stmt); simpl; [|done].
    rewrite IH. by rewrite !orb_true_r.
Qed.

End Characterisation.

Lemma existsb_pointwise {A} (f g : A → bool) (l : list A) :
  (∀ x, f x = g x) → existsb f l = existsb g l.
Proof.
  intros H. induction l as [|x l IH]; simpl; [done|]. by rewrite H, IH.
Qed.

Lemma can_spec (P : Policy) (res action : string) (c : ContextArg) :
  can P res action c
  = negb (existsb (λ s, fires res action (inputConditions c) s && is_deny s) P)
    && existsb (λ s, fires res action (inputConditions c) s && is_allow s) P.
Proof.
  unfold can, relevantStatements. rewrite can_loop_spec. simpl.
  rewrite !existsb_filter. unfold fires, applies.
  f_equal; [f_equal|]; apply existsb_pointwise; intros s;
    by rewrite !andb_assoc.
Qed.

Lemma fires_true (res action : string) (inputs : list AttrMap) (stmt : Statement) :
  fires res action inputs stmt = true
  ↔ resource stmt = res
    ∧ actionMatches stmt action = true
    ∧ conditionMatches stmt inputs = true.
Proof.
  unfold fires. rewrite !andb_true_iff, String.eqb_eq. tauto.
Qed.

Lemma is_deny_true (stmt : Statement) : is_deny stmt = true ↔ effect stmt = deny.
Proof. unfold is_deny. by destruct (effect stmt). Qed.

Lemma is_allow_true (stmt : Statement) : is_allow stmt = true ↔ effect stmt = allow.
Proof. unfold is_allow. by destruct (effect stmt). Qed.

Lemma existsb_elem_of {A} (f : A → bool) (l : list A) :
  existsb f l = true ↔ ∃ x, x ∈ l ∧ f x = true.
Proof.
  rewrite existsb_exists. by setoid_rewrite list_elem_of_In.
Qed.

Lemma existsb_false_elem_of {A} (f : A → bool) (l : list A) :
  existsb f l = false ↔ ∀ x, x ∈ l → f x = false.
Proof.
  rewrite <- not_true_iff_false, existsb_elem_of. split.
  - intros H x Hx. apply not_true_iff_false. intros Hf. apply H. eauto.
  - intros H [x [Hx Hf]]. rewrite (H x Hx) in Hf. discriminate.
Qed.

(** [can] answers [true] exactly when some firing statement allows and no
    firing statement denies. *)
Lemma can_true_iff (P : Policy) (res action : string) (c : ContextArg) :
  can P res action c = true
  ↔ (∃ s, s ∈ P ∧ fires res action (inputConditions c) s = true ∧ effect s = allow)
    ∧ (∀ s, s ∈ P → fires res action (inputConditions c) s = true → effect s ≠ deny).
Proof.
  rewrite can_spec, andb_true_iff, negb_true_iff.
  rewrite existsb_elem_of, existsb_false_elem_of.
  split; intros [H1 H2]; split.
  - destruct H2 as (s & Hs & Hf). apply andb_true_iff in Hf as [Hf Ha].
    exists s. by rewrite <- is_allow_true.
  - intros s Hs Hf Hd. specialize (H1 s Hs).
    apply is_deny_true in Hd. rewrite Hf, Hd in H1. discriminate.
  - intros s Hs. destruct (fires _ _ _ s) eqn:Hf; [|done]. simpl.
    specialize (H2 s Hs Hf). unfold is_deny. by destruct (effect s).
  - destruct H1 as (s & Hs & Hf & Ha). exists s. split; [done|].
    apply is_allow_true in Ha. by rewrite Hf, Ha.
Qed.

Lemma can_false_of_deny (P : Policy) (res action : string) (c : ContextArg)
      (stmt : Statement) :
  stmt ∈ P → effect stmt = deny →
  fires res action (inputConditions c) stmt = true →
  can P res action c = false.
Proof.
  intros Hin Hd Hf. apply not_true_iff_false. intros Hcan.
  apply can_true_iff in Hcan as [_ H]. by apply (H stmt).
Qed.

Lemma can_false_of_none (P : Policy) (res action : string) (c : ContextArg) :
  (∀ s, s ∈ P → fires res action (inputConditions c) s = false) →
  can P res action c = false.
Proof.
  intros H. apply not_true_iff_false. intros Hcan.
  apply can_true_iff in Hcan as [(s & Hs & Hf & _) _].
  rewrite (H s Hs) in Hf. discriminate.
Qed.

(** ** Resource selection *)

Lemma relevantStatements_elem (P : Policy) (res : string) (stmt : Statement) :
  stmt ∈ relevantStatements P res ↔ stmt ∈ P ∧ resource stmt = res.
Proof.
  unfold relevantStatements.
  rewrite !list_elem_of_In, filter_In, String.eqb_eq. tauto.
Qed.

(** A statement whose resource is the string ["*"] is selected only by a
    query on the resource named ["*"]. *)
Lemma star_statement_selected (P : Policy) (res : string) (stmt : Statement) :
  stmt ∈ P → resource stmt = "*" →
  (stmt ∈ relevantStatements P res ↔ res = "*").
Proof.
  intros Hin Hstar. rewrite relevantStatements_elem, Hstar.
  split; [by intros [_ ->] | by intros ->].
Qed.

(** C1 as written fails on the code: the filter of the source compares
    with [===] only.  On the policy [[{resource: "*", actions: ["*"],
    effect: "allow"}]] (the ADMIN recipe of the README) a query on
    ["POST"] selects nothing, and the unconditional allow statement does
    not contribute: the answer is [false]. *)
Lemma C1_counterexample :
  let stmt := mkStatement "*" ["*"] allow None in
  actionMatches stmt "read" = true
  ∧ conditionMatches stmt (inputConditions NoContext) = true
  ∧ relevantStatements [stmt] "POST" = []
  ∧ can [stmt] "POST" "read" NoContext = false
  ∧ ¬ spec_selects_star [stmt] "POST".
Proof.
  intros stmt. repeat split; try reflexivity.
  intros H. specialize (H stmt).
  assert (Hin : stmt ∈ relevantStatements [stmt] "POST").
  { apply H; [apply list_elem_of_here | by right]. }
  change (relevantStatements [stmt] "POST") with (@nil Statement) in Hin.
  by apply not_elem_of_nil in Hin.
Qed.

(** A statement on another resource does not take part in the decision. *)
Lemma can_skip_resource (P1 P2 : Policy) (stmt : Statement)
      (res action : string) (c : ContextArg) :
  resource stmt ≠ res →
  can (P1 ++ stmt :: P2)%list res action c = can (P1 ++ P2)%list res action c.
Proof.
  intros Hr. rewrite !can_spec, !existsb_app. simpl.
  assert (Hf : fires res action (inputConditions c) stmt = false).
  { apply not_true_iff_false. rewrite fires_true. tauto. }
  by rewrite Hf.
Qed.

(** C1 (resource matching), amended.  [can] selects, and runs its loop
    over, exactly the statements whose resource equals the queried one;
    a statement with any other resource, the string ["*"] included,
    does not take part in the decision.  A statement with resource ["*"]
    is selected only by a query on the resource ["*"]. *)
Theorem C1_resource_selection (P : Policy) (res : string) :
  (∀ stmt, stmt ∈ relevantStatements P res ↔ stmt ∈ P ∧ resource stmt = res)
  ∧ (∀ action c,
       can P res action c
       = can_loop (relevantStatements P res) action (inputConditions c) false)
  ∧ (∀ stmt P1 P2 action c,
       resource stmt ≠ res →
       can (P1 ++ stmt :: P2)%list res action c
       = can (P1 ++ P2)%list res action c)
  ∧ (∀ stmt, stmt ∈ P → resource stmt = "*" →
             (stmt ∈ relevantStatements P res ↔ res = "*")).
Proof.
  split; [|split; [|split]].
  - intros stmt. apply relevantStatements_elem.
  - reflexivity.
  - intros stmt P1 P2 action c. apply can_skip_resource.
  - intros stmt. apply star_statement_selected.
Qed.

Lemma C1_resource_selection_witness :
  can ([] ++ mkStatement "*" ["*"] deny None
          :: [mkStatement "POST" ["read"] allow None])%list
      "POST" "read" NoContext
  = can ([] ++ [mkStatement "POST" ["read"] allow None])%list
        "POST" "read" NoContext.
Proof.
  apply (C1_resource_selection [] "POST"). discriminate.
Defined.

(** ** Deny precedence and default deny *)






(** The instances the specification names. *)
Lemma can_empty_policy (res action : string) (c : ContextArg) :
  can [] res action c = false.
Proof. reflexivity. Qed.

Lemma can_unknown_resource (P : Policy) (res action : string) (c : ContextArg) :
  (∀ stmt, stmt ∈ P → resource stmt ≠ res) →
  can P res action c = false.
Proof.
  intros H. apply can_false_of_none. intros s Hs.
  apply not_true_iff_false. rewrite fires_true. intros [Hr _]. by apply (H s).
Qed.

Lemma can_unmatched_action (P : Policy) (res action : string) (c : ContextArg) :
  (∀ stmt, stmt ∈ P → actionMatches stmt action = false) →
  can P res action c = false.
Proof.
  intros H. apply can_false_of_none. intros s Hs.
  apply not_true_iff_false. rewrite fires_true. intros (_ & Ha & _).
  rewrite (H s Hs) in Ha. discriminate.
Qed.

(** ** Condition matching *)

Lemma entriesMatch_true (pc ic : AttrMap) :
  entriesMatch pc ic = true ↔ read_pair_matches pc ic.
Proof.
  unfold entriesMatch, read_pair_matches. rewrite forallb_forall. split.
  - intros H k v Hkv. apply (H (k, v)).
    apply list_elem_of_In. by apply elem_of_map_to_list.
  - intros H [k v] Hin. apply H.
    apply elem_of_map_to_list. by apply list_elem_of_In.
Qed.

Lemma anyMatch_true (pcs ics : list AttrMap) :
  anyMatch pcs ics = true
  ↔ ∃ pc ic, pc ∈ pcs ∧ ic ∈ ics ∧ read_pair_matches pc ic.
Proof.
  unfold anyMatch. rewrite existsb_elem_of. split.
  - intros (pc & Hpc & H). apply existsb_elem_of in H as (ic & Hic & H).
    exists pc, ic. by rewrite <- entriesMatch_true.
  - intros (pc & ic & Hpc & Hic & H). exists pc. split; [done|].
    apply existsb_elem_of. exists ic. by rewrite entriesMatch_true.
Qed.

Lemma strict_eq_undefined_l (v : Value) :
  strict_eq VUndefined v = true → v = VUndefined.
Proof. by destruct v. Qed.

(** One read compared with one value: the own property is strictly
    equal, or there is none, the prototype has none either, and the value
    is [undefined]. *)
Lemma strict_eq_read_prop_get (ic : AttrMap) (k : string) (v : Value) :
  strict_eq_read (prop_get ic k) v = true
  ↔ (∃ w, ic !! k = Some w ∧ strict_eq w v = true)
    ∨ (ic !! k = None ∧ v = VUndefined
       ∧ includes object_prototype_keys k = false).
Proof.
  unfold prop_get. destruct (ic !! k) as [w|] eqn:Hw.
  - cbn [strict_eq_read]. split.
    + intros H. left. by exists w.
    + intros [(w' & Hw' & H)|(Hnone & _)]; [|discriminate].
      by inversion Hw'; subst.
  - destruct (includes object_prototype_keys k) eqn:Hproto;
      cbn [strict_eq_read]; split.
    + discriminate.
    + intros [(w' & Hw' & _)|(_ & _ & H)]; discriminate.
    + intros H%strict_eq_undefined_l. by right.
    + intros [(w' & Hw' & _)|(_ & -> & _)]; [discriminate|done].
Qed.


Lemma spec_pair_matches_read (pc ic : AttrMap) :
  spec_pair_matches pc ic → read_pair_matches pc ic.
Proof.
  intros H k v Hkv. apply strict_eq_read_prop_get. left. by apply H.
Qed.

Lemma read_pair_matches_spec (pc ic : AttrMap) :
  no_undefined pc → read_pair_matches pc ic → spec_pair_matches pc ic.
Proof.
  intros Hnu H k v Hkv. specialize (H k v Hkv).
  apply strict_eq_read_prop_get in H as [H|(_ & -> & _)]; [done|].
  by destruct (Hnu k).
Qed.

(** With conditions and candidates both present, the check is [anyMatch]. *)
Lemma conditionMatches_nonempty (stmt : Statement) (pcs ics : list AttrMap) :
  conditions stmt = Some pcs → pcs ≠ [] → ics ≠ [] →
  conditionMatches stmt ics = anyMatch pcs ics.
Proof.
  intros Hc Hp Hi. unfold conditionMatches. rewrite Hc. simpl.
  destruct pcs as [|pc pcs]; [done|]. destruct ics as [|ic ics]; [done|].
  change (0 <? length (pc :: pcs))%nat with true.
  change (length (ic :: ics) =? 0)%nat with false.
  cbv iota. by destruct (anyMatch _ _).
Qed.


(** With conditions and no candidate, the check fails. *)
Lemma conditionMatches_no_input (stmt : Statement) (pcs : list AttrMap) :
  conditions stmt = Some pcs → pcs ≠ [] →
  conditionMatches stmt [] = false.
Proof.
  intros Hc Hp. unfold conditionMatches. rewrite Hc. simpl.
  by destruct pcs.
Qed.




(** A key that names a member of [Object.prototype] is read from the
    prototype when the candidate has no own property of that name:
    [({})["constructor"]] is a function, not [undefined], and
    [{constructor: undefined}] does not match [{}], while
    [{authorId: undefined}] does. *)
Example inherited_key_is_not_undefined :
  entriesMatch {["constructor" := VUndefined]} ∅ = false
  ∧ entriesMatch {["toString" := VUndefined]} ∅ = false
  ∧ entriesMatch {["authorId" := VUndefined]} ∅ = true
  ∧ entriesMatch {["constructor" := VString "x"]}
                 {["constructor" := VString "x"]} = true.
Proof. vm_compute. repeat split; reflexivity. Qed.

(** The examples of the specification: conditions [[{a:1},{b:2}]]. *)
Example condition_or_semantics :
  let P := [ mkStatement "POST" ["read"] allow
               (Some [ {["a" := VNumber 1%float]}; {["b" := VNumber 2%float]} ]) ] in
  can P "POST" "read" (OneContext {["a" := VNumber 1%float]}) = true
  ∧ can P "POST" "read" (OneContext {["b" := VNumber 2%float]}) = true
  ∧ can P "POST" "read"
        (OneContext (<["a" := VNumber 1%float]> {["b" := VNumber 2%float]})) = true
  ∧ can P "POST" "read" (OneContext {["a" := VNumber 9%float]}) = false.
Proof. vm_compute. repeat split; reflexivity. Qed.

(** ** Queries without context *)

Lemma inputConditions_nil (c : ContextArg) :
  inputConditions c = [] ↔ c = NoContext ∨ c = ManyContexts [].
Proof.
  destruct c as [|m|l]; simpl.
  - split; auto.
  - split; [discriminate | intros [?|?]; discriminate].
  - split; [intros ->; auto | intros [?|H]; [discriminate | by inversion H]].
Qed.

(** C5 (missing context with required conditions).  When the query
    supplies no candidate, the context being absent or an empty sequence,
    a statement with a non-empty conditions list is not satisfied; and a
    policy made only of such statements, allow statements in particular,
    answers [false]. *)
Theorem C5_missing_context (c : ContextArg) :
  c = NoContext ∨ c = ManyContexts [] →
  (∀ stmt pcs, conditions stmt = Some pcs → pcs ≠ [] →
     conditionMatches stmt (inputConditions c) = false)
  ∧ (∀ P res action,
       (∀ stmt, stmt ∈ P → ∃ pcs, conditions stmt = Some pcs ∧ pcs ≠ []) →
       can P res action c = false).
Proof.
  intros Hc. apply inputConditions_nil in Hc. rewrite Hc.
  split.
  - intros stmt pcs. apply conditionMatches_no_input.
  - intros P res action H. apply can_false_of_none. intros s Hs.
    destruct (H s Hs) as (pcs & Hpcs & Hne).
    unfold fires. rewrite Hc, (conditionMatches_no_input s pcs Hpcs Hne).
    apply andb_false_r.
Qed.

Lemma C5_missing_context_witness :
  conditionMatches
    (mkStatement "POST" ["update"] allow (Some [ {["authorId" := VString "auth-123"]} ]))
    (inputConditions NoContext) = false
  ∧ can Samples.post_policy "POST" "read" NoContext = false.
Proof.
  destruct (C5_missing_context NoContext (or_introl eq_refl)) as [H1 H2].
  split.
  - apply (H1 _ [ {["authorId" := VString "auth-123"]} ]).
    + reflexivity.
    + discriminate.
  - apply H2. intros stmt Hin.
    apply list_elem_of_In in Hin. simpl in Hin.
    destruct Hin as [<-|[<-|[]]];
      eexists; (split; [reflexivity | discriminate]).
Defined.

(** ** [canAll] and [canAny] *)

(** C6 ([canAll]/[canAny] consistency with [can]).  [canAll] is [true] iff
    [can] is [true] for every action of the list, [canAny] iff it is for
    at least one; on the empty list [canAll] is [true] and [canAny] is
    [false]. *)
Theorem C6_canAll_canAny (P : Policy) (res : string) (acts : list string)
        (c : ContextArg) :
  (canAll P res acts c = true ↔ ∀ a, a ∈ acts → can P res a c = true)
  ∧ (canAny P res acts c = true ↔ ∃ a, a ∈ acts ∧ can P res a c = true)
  ∧ canAll P res [] c = true
  ∧ canAny P res [] c = false.
Proof.
  unfold canAll, canAny. repeat split; try reflexivity.
  - intros H a Ha. rewrite forallb_forall in H. apply H.
    by apply list_elem_of_In.
  - intros H. apply forallb_forall. intros a Ha. apply H.
    by apply list_elem_of_In.
  - by intros H%existsb_elem_of.
  - by intros H%existsb_elem_of.
Qed.

(** ** Wildcard actions *)

Lemma includes_true (l : list string) (x : string) :
  includes l x = true ↔ x ∈ l.
Proof.
  unfold includes. rewrite existsb_elem_of. split.
  - by intros (y & Hy & ->%String.eqb_eq).
  - intros Hx. exists x. by rewrite String.eqb_refl.
Qed.

Lemma includes_false (l : list string) (x : string) :
  includes l x = false ↔ x ∉ l.
Proof. by rewrite <- not_true_iff_false, includes_true. Qed.

Lemma actionMatches_true (stmt : Statement) (action : string) :
  actionMatches stmt action = true ↔ "*" ∈ actions stmt ∨ action ∈ actions stmt.
Proof.
  unfold actionMatches. by rewrite orb_true_iff, !includes_true.
Qed.

(** A statement that does not fire can be removed from the policy. *)
Lemma can_skip (P1 P2 : Policy) (stmt : Statement) (res action : string)
      (c : ContextArg) :
  fires res action (inputConditions c) stmt = false →
  can (P1 ++ stmt :: P2)%list res action c = can (P1 ++ P2)%list res action c.
Proof.
  intros Hf. rewrite !can_spec, !existsb_app. simpl. by rewrite Hf.
Qed.

(** C7 (wildcard action matching).  A statement whose actions contain
    ["*"] is never skipped by the action check, for any queried action:
    the loop goes on to its conditions and, if they are satisfied, to
    its effect.  So, all else equal, it decides every action as the same
    statement naming that action would: as a satisfied deny on the
    queried resource it makes [can] return [false], as a satisfied allow
    it makes [can] return [true] when no deny fires.  A statement whose
    actions contain neither the queried action nor ["*"] fails the check
    and is skipped: the decision is the one of the policy without it. *)
Theorem C7_wildcard_action (stmt : Statement) :
  ("*" ∈ actions stmt →
     ∀ action,
       actionMatches stmt action = true
       ∧ (∀ rest inputs isAllowed,
            can_loop (stmt :: rest) action inputs isAllowed
            = if conditionMatches stmt inputs
              then match effect stmt with
                   | deny => false
                   | allow => can_loop rest action inputs true
                   end
              else can_loop rest action inputs isAllowed)
       ∧ (∀ P1 P2 res c,
            can (P1 ++ stmt :: P2)%list res action c
            = can (P1 ++ mkStatement (resource stmt) [action] (effect stmt)
                           (conditions stmt) :: P2)%list res action c)
       ∧ (∀ P c,
            stmt ∈ P → effect stmt = deny →
            conditionMatches stmt (inputConditions c) = true →
            can P (resource stmt) action c = false)
       ∧ (∀ P c,
            stmt ∈ P → effect stmt = allow →
            conditionMatches stmt (inputConditions c) = true →
            (∀ d, d ∈ P → effect d = deny →
               ¬ (resource d = resource stmt
                  ∧ actionMatches d action = true
                  ∧ conditionMatches d (inputConditions c) = true)) →
            can P (resource stmt) action c = true)
       ∧ ∀ res ics, fires res action ics stmt
                    = String.eqb (resource stmt) res && conditionMatches stmt ics)
  ∧ (∀ action,
       action ∉ actions stmt → "*" ∉ actions stmt →
       actionMatches stmt action = false
       ∧ ∀ P1 P2 res c,
           can (P1 ++ stmt :: P2)%list res action c = can (P1 ++ P2)%list res action c).
Proof.
  split.
  - intros Hstar action.
    assert (Ha : actionMatches stmt action = true)
      by (apply actionMatches_true; auto).
    split; [done|]. split; [|split; [|split; [|split]]].
    + intros rest inputs isAllowed. cbn [can_loop]. rewrite Ha.
      cbn [negb]. by destruct (conditionMatches stmt inputs).
    + intros P1 P2 res c.
      set (named := mkStatement (resource stmt) [action] (effect stmt)
                      (conditions stmt)).
      assert (Hb : actionMatches named action = true).
      { apply actionMatches_true. right. apply list_elem_of_here. }
      assert (Hf : fires res action (inputConditions c) stmt
                   = fires res action (inputConditions c) named).
      { unfold fires. rewrite Ha, Hb. reflexivity. }
      rewrite !can_spec, !existsb_app. cbn [existsb]. rewrite Hf.
      reflexivity.
    + intros P c Hin He Hc.
      apply (can_false_of_deny P _ _ _ stmt Hin He). by apply fires_true.
    + intros P c Hin He Hc Hd. apply can_true_iff. split.
      * exists stmt. split; [done|]. split; [|done]. by apply fires_true.
      * intros d Hdin Hf Hdeny. apply (Hd d Hdin Hdeny). by apply fires_true.
    + intros res ics. unfold fires. rewrite Ha. by rewrite andb_true_r.
  - intros action Ha Hstar.
    assert (Hm : actionMatches stmt action = false).
    { apply not_true_iff_false. rewrite actionMatches_true. tauto. }
    split; [done|]. intros P1 P2 res c. apply can_skip.
    unfold fires. rewrite Hm. by rewrite andb_false_r.
Qed.

Lemma C7_wildcard_action_witness :
  can [ mkStatement "POST" ["read"] allow None;
        mkStatement "POST" ["*"] deny None ] "POST" "delete" NoContext = false
  ∧ can [ mkStatement "POST" ["*"] allow None ] "POST" "delete" NoContext = true
  ∧ actionMatches (mkStatement "POST" ["read"] allow None) "delete" = false.
Proof.
  split; [|split].
  - destruct (C7_wildcard_action (mkStatement "POST" ["*"] deny None))
      as [Hpos _].
    destruct (Hpos (list_elem_of_here _ _) "delete")
      as (_ & _ & _ & Hdeny & _).
    apply (Hdeny [ mkStatement "POST" ["read"] allow None;
                   mkStatement "POST" ["*"] deny None ] NoContext).
    + apply list_elem_of_In. simpl. auto.
    + reflexivity.
    + reflexivity.
  - destruct (C7_wildcard_action (mkStatement "POST" ["*"] allow None))
      as [Hpos _].
    destruct (Hpos (list_elem_of_here _ _) "delete")
      as (_ & _ & _ & _ & Hallow & _).
    apply (Hallow [ mkStatement "POST" ["*"] allow None ] NoContext).
    + apply list_elem_of_here.
    + reflexivity.
    + reflexivity.
    + intros d Hd He. apply list_elem_of_singleton in Hd. subst d.
      discriminate He.
  - apply (C7_wildcard_action (mkStatement "POST" ["read"] allow None)).
    + intros Hin. apply list_elem_of_In in Hin. simpl in Hin.
      destruct Hin as [H|[]]. discriminate H.
    + intros Hin. apply list_elem_of_In in Hin. simpl in Hin.
      destruct Hin as [H|[]]. discriminate H.
Defined.

(** ** Unconditional statements *)




(** ** Order of the statements *)

Lemma existsb_Permutation {A} (f : A → bool) (l l' : list A) :
  l ≡ₚ l' → existsb f l = existsb f l'.
Proof.
  induction 1 as [|x l l' _ IH|x y l|l l' l'' _ IH1 _ IH2]; simpl.
  - done.
  - by rewrite IH.
  - by rewrite !orb_assoc, (orb_comm (f y)).
  - by rewrite IH1.
Qed.

(** C9 (order irrelevance of the decision).  Permuting the statements of
    a policy does not change the answer of [can], for any resource, action
    and context. *)
Theorem C9_order_irrelevant (P P' : Policy) (res action : string)
        (c : ContextArg) :
  P ≡ₚ P' → can P res action c = can P' res action c.
Proof.
  intros HP. rewrite !can_spec.
  by rewrite (existsb_Permutation _ P P' HP), (existsb_Permutation _ P P' HP).
Qed.

Lemma C9_order_irrelevant_witness :
  can Samples.deny_policy "POST" "delete" NoContext
  = can (rev Samples.deny_policy) "POST" "delete" NoContext.
Proof.
  apply (C9_order_irrelevant Samples.deny_policy (rev Samples.deny_policy)).
  simpl. apply perm_swap.
Defined.

(** The deny statement wins on either side of the allow statement. *)
Example deny_first_or_last :
  can Samples.deny_policy "POST" "delete" NoContext = false
  ∧ can (rev Samples.deny_policy) "POST" "delete" NoContext = false
  ∧ can Samples.deny_policy "POST" "read" NoContext = true.
Proof. vm_compute. repeat split; reflexivity. Qed.

(** ** Keys the policy does not name *)

Lemma existsb_ext_in {A} (f g : A → bool) (l : list A) :
  (∀ x, x ∈ l → f x = g x) → existsb f l = existsb g l.
Proof.
  induction l as [|x l IH]; intros H; simpl; [done|].
  rewrite (H x), IH; [done| |]; [|by left].
  intros y Hy. apply H. by right.
Qed.

Lemma forallb_ext_in {A} (f g : A → bool) (l : list A) :
  (∀ x, x ∈ l → f x = g x) → forallb f l = forallb g l.
Proof.
  induction l as [|x l IH]; intros H; simpl; [done|].
  rewrite (H x), IH; [done| |]; [|by left].
  intros y Hy. apply H. by right.
Qed.

Lemma policy_keys_elem (P : Policy) (stmt : Statement) (pc : AttrMap) (k : string) :
  stmt ∈ P → pc ∈ default [] (conditions stmt) → is_Some (pc !! k) →
  k ∈ policy_keys P.
Proof.
  intros Hs Hpc Hk. unfold policy_keys.
  apply elem_of_union_list. exists (statement_keys stmt). split.
  - apply list_elem_of_fmap. by exists stmt.
  - unfold statement_keys. apply elem_of_union_list. exists (dom pc). split.
    + apply list_elem_of_fmap. by exists pc.
    + by apply elem_of_dom.
Qed.

Section Noninterference.

Variable P : Policy.

(** One condition-set of the policy reads the same from two candidates
    that agree on the keys of the policy. *)
Lemma entriesMatch_agree (stmt : Statement) (pc m1 m2 : AttrMap) :
  stmt ∈ P → pc ∈ default [] (conditions stmt) →
  agree_on (policy_keys P) m1 m2 →
  entriesMatch pc m1 = entriesMatch pc m2.
Proof.
  intros Hs Hpc Hm. unfold entriesMatch. apply forallb_ext_in.
  intros [k v] Hkv. apply elem_of_map_to_list in Hkv.
  unfold prop_get. rewrite (Hm k); [done|].
  apply (policy_keys_elem P stmt pc k); eauto.
Qed.

Lemma anyMatch_agree (stmt : Statement) (ics1 ics2 : list AttrMap) :
  stmt ∈ P →
  Forall2 (agree_on (policy_keys P)) ics1 ics2 →
  anyMatch (default [] (conditions stmt)) ics1
  = anyMatch (default [] (conditions stmt)) ics2.
Proof.
  intros Hs Hagree. unfold anyMatch. apply existsb_ext_in. intros pc Hpc.
  induction Hagree as [|m1 m2 l1 l2 Hm _ IH]; simpl; [done|].
  by rewrite IH, (entriesMatch_agree stmt pc m1 m2).
Qed.

Lemma conditionMatches_agree (stmt : Statement) (ics1 ics2 : list AttrMap) :
  stmt ∈ P →
  Forall2 (agree_on (policy_keys P)) ics1 ics2 →
  conditionMatches stmt ics1 = conditionMatches stmt ics2.
Proof.
  intros Hs Hagree. unfold conditionMatches.
  by rewrite (anyMatch_agree stmt ics1 ics2 Hs Hagree),
             (Forall2_length _ _ _ Hagree).
Qed.

Lemma fires_agree (res action : string) (stmt : Statement)
      (ics1 ics2 : list AttrMap) :
  stmt ∈ P →
  Forall2 (agree_on (policy_keys P)) ics1 ics2 →
  fires res action ics1 stmt = fires res action ics2 stmt.
Proof.
  intros Hs Hagree. unfold fires.
  by rewrite (conditionMatches_agree stmt ics1 ics2 Hs Hagree).
Qed.

End Noninterference.

Lemma can_agree (P : Policy) (c1 c2 : ContextArg) (res action : string) :
  Forall2 (agree_on (policy_keys P)) (inputConditions c1) (inputConditions c2) →
  can P res action c1 = can P res action c2.
Proof.
  intros H. rewrite !can_spec.
  f_equal; [f_equal|]; apply existsb_ext_in; intros s Hs;
    by rewrite (fires_agree P res action s _ _ Hs H).
Qed.

(** C10 (noninterference of unreferenced context keys).  If the candidate
    maps of two context inputs agree, one by one, on every key that
    occurs in a condition-set of the policy, then [can], [canAll] and
    [canAny] answer alike on the two inputs, whatever the maps hold at
    other keys. *)
Theorem C10_noninterference (P : Policy) (c1 c2 : ContextArg) :
  Forall2 (agree_on (policy_keys P)) (inputConditions c1) (inputConditions c2) →
  (∀ res action, can P res action c1 = can P res action c2)
  ∧ (∀ res acts, canAll P res acts c1 = canAll P res acts c2)
  ∧ (∀ res acts, canAny P res acts c1 = canAny P res acts c2).
Proof.
  intros H. split; [|split].
  - intros res action. by apply can_agree.
  - intros res acts. unfold canAll. apply forallb_ext_in.
    intros a _. by apply can_agree.
  - intros res acts. unfold canAny. apply existsb_ext_in.
    intros a _. by apply can_agree.
Qed.

Lemma C10_noninterference_witness :
  let P := [ mkStatement "POST" ["update"] allow
               (Some [ {["authorId" := VString "auth-123"]} ]) ] in
  let c1 := OneContext (<["authorId" := VString "auth-123"]>
                          {["theme" := VString "dark"]}) in
  let c2 := ManyContexts [ <["authorId" := VString "auth-123"]>
                             {["debug" := VBool true]} ] in
  (∀ res action, can P res action c1 = can P res action c2)
  ∧ (∀ res acts, canAll P res acts c1 = canAll P res acts c2)
  ∧ (∀ res acts, canAny P res acts c1 = canAny P res acts c2).
Proof.
  intros P c1 c2. apply (C10_noninterference P c1 c2).
  constructor; [|constructor]. intros k Hk.
  assert (k = "authorId") as ->.
  { revert Hk. unfold policy_keys, statement_keys. simpl.
    rewrite !union_empty_r_L, dom_singleton_L. apply elem_of_singleton. }
  vm_compute. reflexivity.
Defined.

(** The two inputs of the witness differ outside the keys of the policy,
    and the decision is [true] on both. *)
Example noninterference_sample :
  let P := [ mkStatement "POST" ["update"] allow
               (Some [ {["authorId" := VString "auth-123"]} ]) ] in
  can P "POST" "update"
      (OneContext (<["authorId" := VString "auth-123"]> {["theme" := VString "dark"]}))
  = true
  ∧ can P "POST" "update"
      (ManyContexts [ <["authorId" := VString "auth-123"]> {["debug" := VBool true]} ])
    = true.
Proof. vm_compute. split; reflexivity. Qed.

(** * Further properties of the evaluator *)

(** ** The decision as a whole *)

Lemma can_denied_granted (P : Policy) (res action : string) (c : ContextArg) :
  can P res action c
  = negb (denied P res action (inputConditions c))
    && granted P res action (inputConditions c).
Proof. apply can_spec. Qed.

Lemma denied_true (P : Policy) (res action : string) (ics : list AttrMap) :
  denied P res action ics = true
  ↔ ∃ d, d ∈ P ∧ fires res action ics d = true ∧ effect d = deny.
Proof.
  unfold denied. rewrite existsb_elem_of.
  split; intros (d & Hd & H); exists d; (split; [done|]).
  - apply andb_true_iff in H as [H1 H2]. by apply is_deny_true in H2.
  - destruct H as [H1 H2]. apply is_deny_true in H2. by rewrite H1, H2.
Qed.

Lemma granted_true (P : Policy) (res action : string) (ics : list AttrMap) :
  granted P res action ics = true
  ↔ ∃ s, s ∈ P ∧ fires res action ics s = true ∧ effect s = allow.
Proof.
  unfold granted. rewrite existsb_elem_of.
  split; intros (d & Hd & H); exists d; (split; [done|]).
  - apply andb_true_iff in H as [H1 H2]. by apply is_allow_true in H2.
  - destruct H as [H1 H2]. apply is_allow_true in H2. by rewrite H1, H2.
Qed.

Lemma denied_app (P1 P2 : Policy) (res action : string) (ics : list AttrMap) :
  denied (P1 ++ P2)%list res action ics
  = denied P1 res action ics || denied P2 res action ics.
Proof. apply existsb_app. Qed.

Lemma granted_app (P1 P2 : Policy) (res action : string) (ics : list AttrMap) :
  granted (P1 ++ P2)%list res action ics
  = granted P1 res action ics || granted P2 res action ics.
Proof. apply existsb_app. Qed.

Lemma deny_free_denied (P : Policy) (res action : string) (ics : list AttrMap) :
  deny_free P → denied P res action ics = false.
Proof.
  intros Hfree. apply not_true_iff_false. rewrite denied_true.
  intros (d & Hd & _ & He). rewrite (Hfree d Hd) in He. discriminate.
Qed.

Lemma existsb_same_elements {A} (f : A → bool) (l l' : list A) :
  (∀ x, x ∈ l ↔ x ∈ l') → existsb f l = existsb f l'.
Proof.
  intros H. apply eq_true_iff_eq. rewrite !existsb_elem_of.
  by setoid_rewrite H.
Qed.

Lemma forallb_same_elements {A} (f : A → bool) (l l' : list A) :
  (∀ x, x ∈ l ↔ x ∈ l') → forallb f l = forallb f l'.
Proof.
  intros H. apply eq_true_iff_eq. rewrite !forallb_forall.
  setoid_rewrite <- list_elem_of_In. by setoid_rewrite H.
Qed.

(** X1.  The early [return false] of the loop cannot be observed in the
    result: [can] answers [true] exactly when some statement of the
    policy on the queried resource, with a passing action check and
    satisfied conditions, allows, and no such statement denies. *)
Theorem can_decision (P : Policy) (res action : string) (c : ContextArg) :
  can P res action c = true
  ↔ (∃ s, s ∈ P ∧ effect s = allow ∧ resource s = res
          ∧ actionMatches s action = true
          ∧ conditionMatches s (inputConditions c) = true)
    ∧ ¬ (∃ d, d ∈ P ∧ effect d = deny ∧ resource d = res
              ∧ actionMatches d action = true
              ∧ conditionMatches d (inputConditions c) = true).
Proof.
  rewrite can_true_iff. split; intros [H1 H2]; split.
  - destruct H1 as (s & Hs & Hf & He). apply fires_true in Hf.
    exists s. tauto.
  - intros (d & Hd & He & Hf). apply (H2 d Hd); [|done].
    apply fires_true. tauto.
  - destruct H1 as (s & Hs & He & Hf). exists s.
    rewrite fires_true. tauto.
  - intros d Hd Hf He. apply H2. exists d. apply fires_true in Hf. tauto.
Qed.

(** X2.  The decision depends on the statements of the policy as a set:
    two policies with the same statements, in any order and with any
    repetitions, decide every query alike. *)
Theorem can_same_statements (P P' : Policy) (res action : string)
        (c : ContextArg) :
  (∀ s, s ∈ P ↔ s ∈ P') → can P res action c = can P' res action c.
Proof.
  intros H. rewrite !can_spec.
  by rewrite (existsb_same_elements _ P P' H), (existsb_same_elements _ P P' H).
Qed.

Lemma can_same_statements_witness :
  let a := mkStatement "POST" ["read"; "delete"] allow None in
  let d := mkStatement "POST" ["delete"] deny None in
  can [a; d] "POST" "delete" NoContext
  = can [d; a; d; a] "POST" "delete" NoContext.
Proof.
  intros a d. apply (can_same_statements [a; d] [d; a; d; a]).
  intros s. rewrite !list_elem_of_In. simpl. tauto.
Defined.

(** X3.  Two policies put together: the concatenation grants iff one of
    them has a firing allow and neither has a firing deny.  So what the
    concatenation grants, one of the two grants; what both grant, the
    concatenation grants; and for policies of allow statements only it
    is the disjunction. *)
Theorem can_concat (P1 P2 : Policy) (res action : string) (c : ContextArg) :
  can (P1 ++ P2)%list res action c
  = negb (denied P1 res action (inputConditions c)
          || denied P2 res action (inputConditions c))
    && (granted P1 res action (inputConditions c)
        || granted P2 res action (inputConditions c))
  ∧ (can (P1 ++ P2)%list res action c = true →
     can P1 res action c = true ∨ can P2 res action c = true)
  ∧ (can P1 res action c = true → can P2 res action c = true →
     can (P1 ++ P2)%list res action c = true)
  ∧ (deny_free P1 → deny_free P2 →
     can (P1 ++ P2)%list res action c
     = can P1 res action c || can P2 res action c).
Proof.
  rewrite !can_denied_granted, denied_app, granted_app.
  split; [done|]. split; [|split].
  - destruct (denied P1 _ _ _), (denied P2 _ _ _),
      (granted P1 _ _ _), (granted P2 _ _ _); simpl; auto.
  - destruct (denied P1 _ _ _), (denied P2 _ _ _),
      (granted P1 _ _ _), (granted P2 _ _ _); simpl; auto.
  - intros H1 H2.
    by rewrite (deny_free_denied P1 _ _ _ H1), (deny_free_denied P2 _ _ _ H2).
Qed.

Lemma can_concat_witness :
  let P1 := [ mkStatement "POST" ["read"] allow None ] in
  let P2 := [ mkStatement "POST" ["delete"] allow None ] in
  can (P1 ++ P2)%list "POST" "delete" NoContext
  = can P1 "POST" "delete" NoContext || can P2 "POST" "delete" NoContext.
Proof.
  intros P1 P2.
  apply (can_concat P1 P2 "POST" "delete" NoContext).
  - intros s Hs. apply list_elem_of_singleton in Hs. by subst s.
  - intros s Hs. apply list_elem_of_singleton in Hs. by subst s.
Defined.

(** X4.  An allow statement only grants and a deny statement only
    revokes: putting an allow statement anywhere into a policy never
    turns a granted query into a refused one, and putting a deny
    statement anywhere never turns a refused query into a granted one. *)
Theorem can_monotone (P1 P2 : Policy) (stmt : Statement) (res action : string)
        (c : ContextArg) :
  (effect stmt = allow →
   can (P1 ++ P2)%list res action c = true →
   can (P1 ++ stmt :: P2)%list res action c = true)
  ∧ (effect stmt = deny →
     can (P1 ++ stmt :: P2)%list res action c = true →
     can (P1 ++ P2)%list res action c = true).
Proof.
  rewrite !can_spec, !existsb_app. simpl.
  unfold is_deny, is_allow.
  split; intros ->; rewrite !andb_false_r, ?andb_true_r; simpl.
  - destruct (existsb _ P1), (existsb _ P2); simpl; try done;
      destruct (existsb _ P1), (existsb _ P2); simpl; try done;
      rewrite ?orb_true_r; done.
  - destruct (fires _ _ _ stmt); simpl; [|done].
    by rewrite orb_true_r.
Qed.

Lemma can_monotone_witness :
  can ([] ++ mkStatement "POST" ["delete"] allow None
          :: [mkStatement "POST" ["read"] allow None])%list
      "POST" "read" NoContext = true.
Proof.
  destruct (can_monotone [] [mkStatement "POST" ["read"] allow None]
              (mkStatement "POST" ["delete"] allow None)
              "POST" "read" NoContext) as [Hallow _].
  apply Hallow.
  - reflexivity.
  - reflexivity.
Defined.

(** ** Conditions and candidates *)

Lemma anyMatch_nil_r (pcs : list AttrMap) : anyMatch pcs [] = false.
Proof. unfold anyMatch. by induction pcs. Qed.

(** The branch on [inputConditions.length === 0] is subsumed: the check
    passes iff the statement is unconditional or some pair matches. *)
Lemma conditionMatches_alt (stmt : Statement) (ics : list AttrMap) :
  conditionMatches stmt ics
  = unconditional stmt || anyMatch (default [] (conditions stmt)) ics.
Proof.
  unfold conditionMatches, unconditional.
  destruct (default [] (conditions stmt)) as [|pc pcs]; [done|].
  change (0 <? length (pc :: pcs))%nat with true. cbv iota.
  destruct ics as [|ic ics].
  - by rewrite anyMatch_nil_r.
  - change (length (ic :: ics) =? 0)%nat with false. cbv iota.
    by destruct (anyMatch _ _).
Qed.

Lemma existsb_orb {A} (f g : A → bool) (l : list A) :
  existsb (λ x, f x || g x) l = existsb f l || existsb g l.
Proof.
  induction l as [|x l IH]; simpl; [done|]. rewrite IH.
  destruct (f x), (g x), (existsb f l), (existsb g l); done.
Qed.

Lemma anyMatch_app_r (pcs l1 l2 : list AttrMap) :
  anyMatch pcs (l1 ++ l2)%list = anyMatch pcs l1 || anyMatch pcs l2.
Proof.
  unfold anyMatch. rewrite <- existsb_orb. apply existsb_pointwise.
  intros pc. apply existsb_app.
Qed.

Lemma anyMatch_app_l (pcs1 pcs2 ics : list AttrMap) :
  anyMatch (pcs1 ++ pcs2)%list ics = anyMatch pcs1 ics || anyMatch pcs2 ics.
Proof. apply existsb_app. Qed.

Lemma conditionMatches_app (stmt : Statement) (l1 l2 : list AttrMap) :
  conditionMatches stmt (l1 ++ l2)%list
  = conditionMatches stmt l1 || conditionMatches stmt l2.
Proof.
  rewrite !conditionMatches_alt, anyMatch_app_r.
  destruct (unconditional stmt), (anyMatch _ l1), (anyMatch _ l2); done.
Qed.

Lemma fires_app (res action : string) (stmt : Statement) (l1 l2 : list AttrMap) :
  fires res action (l1 ++ l2)%list stmt
  = fires res action l1 stmt || fires res action l2 stmt.
Proof.
  unfold fires. rewrite conditionMatches_app.
  destruct (String.eqb _ _), (actionMatches _ _),
    (conditionMatches _ l1), (conditionMatches _ l2); done.
Qed.

Lemma conditionMatches_nil (stmt : Statement) :
  conditionMatches stmt [] = unconditional stmt.
Proof. by rewrite conditionMatches_alt, anyMatch_nil_r, orb_false_r. Qed.

(** X5.  A query without context sees the unconditional statements
    only: when the context is absent or an empty array, the decision is
    the one of the policy with every conditional statement removed,
    conditional deny statements included. *)
Theorem can_context_free (P : Policy) (res action : string) (c : ContextArg) :
  c = NoContext ∨ c = ManyContexts [] →
  can P res action c = can (List.filter unconditional P) res action c.
Proof.
  intros Hc. apply inputConditions_nil in Hc.
  rewrite !can_spec, !existsb_filter, Hc.
  f_equal; [f_equal|]; apply existsb_pointwise; intros s;
    unfold fires; rewrite conditionMatches_nil;
    destruct (unconditional s), (String.eqb _ _), (actionMatches _ _); done.
Qed.

Lemma can_context_free_witness :
  let P := [ mkStatement "POST" ["delete"] allow None;
             mkStatement "POST" ["delete"] deny
               (Some [ {["status" := VString "locked"]} ]) ] in
  can P "POST" "delete" NoContext
  = can (List.filter unconditional P) "POST" "delete" NoContext.
Proof.
  intros P. apply (can_context_free P "POST" "delete" NoContext).
  by left.
Defined.

(** The conditional deny of the witness is out of reach without context. *)
Example conditional_deny_needs_context :
  let P := [ mkStatement "POST" ["delete"] allow None;
             mkStatement "POST" ["delete"] deny
               (Some [ {["status" := VString "locked"]} ]) ] in
  can P "POST" "delete" NoContext = true
  ∧ can P "POST" "delete" (OneContext {["status" := VString "locked"]}) = false.
Proof. vm_compute. split; reflexivity. Qed.

(** X6.  The candidates of an array context are alternatives: a
    statement fires on [l1 ++ l2] iff it fires on [l1] or on [l2], for
    deny statements as for allow statements.  So for a policy of allow
    statements only, a non-empty array is granted iff one of its
    candidates, passed alone, is granted. *)
Theorem can_candidates_or (P : Policy) (res action : string) :
  (∀ l1 l2,
     can P res action (ManyContexts (l1 ++ l2)%list)
     = negb (denied P res action l1 || denied P res action l2)
       && (granted P res action l1 || granted P res action l2))
  ∧ (deny_free P →
     ∀ l, l ≠ [] →
          can P res action (ManyContexts l)
          = existsb (λ m, can P res action (OneContext m)) l).
Proof.
  assert (Happ : ∀ l1 l2,
            can P res action (ManyContexts (l1 ++ l2)%list)
            = negb (denied P res action l1 || denied P res action l2)
              && (granted P res action l1 || granted P res action l2)).
  { intros l1 l2. rewrite can_denied_granted. simpl.
    unfold denied, granted. rewrite <- !existsb_orb.
    f_equal; [f_equal|]; apply existsb_pointwise; intros s;
      rewrite fires_app;
      destruct (fires _ _ l1 s), (fires _ _ l2 s), (is_deny s), (is_allow s);
      done. }
  split; [exact Happ|].
  intros Hfree l Hl.
  assert (Hone : ∀ l1 l2,
            can P res action (ManyContexts (l1 ++ l2)%list)
            = can P res action (ManyContexts l1)
              || can P res action (ManyContexts l2)).
  { intros l1 l2. rewrite Happ, !can_denied_granted. simpl.
    by rewrite !(deny_free_denied P _ _ _ Hfree). }
  destruct l as [|m l]; [done|]. clear Hl.
  revert m. induction l as [|m' l IH]; intros m.
  - simpl. by rewrite orb_false_r.
  - change (m :: m' :: l) with ([m] ++ m' :: l)%list.
    rewrite Hone, IH. reflexivity.
Qed.

Lemma can_candidates_or_witness :
  let P := [ mkStatement "POST" ["update"] allow
               (Some [ {["role" := VString "admin"]} ]) ] in
  let l : list AttrMap :=
    [ {["role" := VString "user"]}; {["role" := VString "admin"]} ] in
  can P "POST" "update" (ManyContexts l)
  = existsb (λ m, can P "POST" "update" (OneContext m)) l.
Proof.
  intros P l.
  destruct (can_candidates_or P "POST" "update") as [_ H].
  apply H.
  - intros s Hs. apply list_elem_of_singleton in Hs. by subst s.
  - discriminate.
Defined.

(** X7.  The empty condition-set matches every candidate.  A statement
    whose conditions contain [{}] passes the condition check of every
    query that supplies at least one candidate, and fails the check of a
    query that supplies none: [conditions: [{}]] is not "no conditions". *)
Theorem empty_condition_set (stmt : Statement) (pcs : list AttrMap) :
  conditions stmt = Some pcs → (∅ : AttrMap) ∈ pcs →
  (∀ ics, ics ≠ [] → conditionMatches stmt ics = true)
  ∧ conditionMatches stmt [] = false.
Proof.
  intros Hc Hin.
  assert (Hne : pcs ≠ []) by (intros ->; by apply not_elem_of_nil in Hin).
  split.
  - intros ics Hics.
    rewrite (conditionMatches_nonempty stmt pcs ics Hc Hne Hics).
    apply anyMatch_true. destruct ics as [|ic ics]; [done|].
    exists ∅, ic. split; [done|]. split; [apply list_elem_of_here|].
    intros k v Hkv. by rewrite lookup_empty in Hkv.
  - by apply (conditionMatches_no_input stmt pcs).
Qed.

Lemma empty_condition_set_witness :
  let stmt := mkStatement "POST" ["read"] allow (Some [ (∅ : AttrMap) ]) in
  (∀ ics, ics ≠ [] → conditionMatches stmt ics = true)
  ∧ conditionMatches stmt [] = false.
Proof.
  intros stmt. apply (empty_condition_set stmt [ (∅ : AttrMap) ]).
  - reflexivity.
  - apply list_elem_of_here.
Defined.

(** X8.  More attributes on a candidate never lose a match, as long as
    no condition-set of the policy holds [undefined]: for a policy of
    allow statements only, a query granted on a context is granted on
    every context that extends it with further keys. *)
Theorem can_context_extension (P : Policy) (res action : string)
        (m m' : AttrMap) :
  deny_free P → policy_no_undefined P → m ⊆ m' →
  can P res action (OneContext m) = true →
  can P res action (OneContext m') = true.
Proof.
  intros Hfree Hnu Hsub. rewrite !can_true_iff. simpl.
  intros [(s & Hs & Hf & He) _]. split.
  - exists s. split; [done|]. split; [|done].
    apply fires_true in Hf as (Hr & Ha & Hc). apply fires_true.
    split; [done|]. split; [done|].
    rewrite conditionMatches_alt in Hc |- *.
    apply orb_true_iff in Hc as [Hu|Hany]; [by rewrite Hu|].
    apply orb_true_iff. right.
    apply anyMatch_true in Hany as (pc & ic & Hpc & Hic & Hm).
    apply list_elem_of_singleton in Hic. subst ic.
    apply anyMatch_true. exists pc, m'.
    split; [done|]. split; [apply list_elem_of_here|].
    apply spec_pair_matches_read.
    apply read_pair_matches_spec in Hm; [|by apply (Hnu s)].
    intros k v Hkv. destruct (Hm k v Hkv) as (w & Hw & Heq).
    exists w. split; [|done]. by apply (lookup_weaken m m').
  - intros d Hd _ Hdeny. rewrite (Hfree d Hd) in Hdeny. discriminate.
Qed.

Lemma can_context_extension_witness :
  let P := [ mkStatement "POST" ["update"] allow
               (Some [ {["authorId" := VString "a1"]} ]) ] in
  can P "POST" "update"
      (OneContext (<["status" := VString "draft"]> {["authorId" := VString "a1"]}))
  = true.
Proof.
  intros P.
  apply (can_context_extension P "POST" "update" {["authorId" := VString "a1"]}).
  - intros s Hs. apply list_elem_of_singleton in Hs. by subst s.
  - intros s pc Hs Hpc k Hk.
    apply list_elem_of_singleton in Hs. subst s. simpl in Hpc.
    apply list_elem_of_singleton in Hpc. subst pc.
    apply lookup_singleton_Some in Hk as [_ Hk]. discriminate.
  - apply insert_subseteq. reflexivity.
  - reflexivity.
Defined.

(** ** Statements as sets of actions and of condition-sets *)

Lemma fires_with_actions_app (res action : string) (ics : list AttrMap)
      (stmt : Statement) (l1 l2 : list string) :
  fires res action ics (with_actions stmt (l1 ++ l2)%list)
  = fires res action ics (with_actions stmt l1)
    || fires res action ics (with_actions stmt l2).
Proof.
  assert (Hc : ∀ l, conditionMatches (with_actions stmt l) ics
                    = conditionMatches stmt ics) by done.
  assert (Ha : actionMatches (with_actions stmt (l1 ++ l2)%list) action
               = actionMatches (with_actions stmt l1) action
                 || actionMatches (with_actions stmt l2) action).
  { unfold actionMatches, includes, with_actions. cbn [actions].
    rewrite !existsb_app.
    destruct (existsb (String.eqb "*") l1), (existsb (String.eqb "*") l2),
      (existsb (String.eqb action) l1), (existsb (String.eqb action) l2);
      done. }
  unfold fires. rewrite Ha, !Hc. simpl.
  destruct (String.eqb _ _), (actionMatches (with_actions stmt l1) action),
    (actionMatches (with_actions stmt l2) action), (conditionMatches stmt ics);
    done.
Qed.

Lemma fires_with_conditions_app (res action : string) (ics : list AttrMap)
      (stmt : Statement) (pcs1 pcs2 : list AttrMap) :
  pcs1 ≠ [] → pcs2 ≠ [] →
  fires res action ics (with_conditions stmt (pcs1 ++ pcs2)%list)
  = fires res action ics (with_conditions stmt pcs1)
    || fires res action ics (with_conditions stmt pcs2).
Proof.
  intros H1 H2. unfold fires. rewrite !conditionMatches_alt.
  unfold unconditional, actionMatches. simpl. rewrite anyMatch_app_l.
  destruct pcs1 as [|p1 pcs1]; [done|]. destruct pcs2 as [|p2 pcs2]; [done|].
  simpl app.
  destruct (String.eqb _ _), (includes _ _ || includes _ _),
    (anyMatch (p1 :: pcs1) ics), (anyMatch (p2 :: pcs2) ics); done.
Qed.

Lemma can_replace (P1 P2 : Policy) (stmt : Statement) (stmts : list Statement)
      (res action : string) (c : ContextArg) :
  effect stmt = deny ∧ Forall (λ s, effect s = deny) stmts
  ∨ effect stmt = allow ∧ Forall (λ s, effect s = allow) stmts →
  fires res action (inputConditions c) stmt
  = existsb (fires res action (inputConditions c)) stmts →
  can (P1 ++ stmt :: P2)%list res action c
  = can (P1 ++ stmts ++ P2)%list res action c.
Proof.
  intros He Hf. rewrite !can_spec, !existsb_app. simpl.
  assert (Hd : fires res action (inputConditions c) stmt && is_deny stmt
               = existsb (λ s, fires res action (inputConditions c) s
                               && is_deny s) stmts).
  { rewrite Hf. unfold is_deny. destruct He as [[-> Hall]|[-> Hall]].
    - rewrite andb_true_r. apply existsb_ext_in. intros s Hs.
      rewrite Forall_forall in Hall. rewrite (Hall s Hs). by rewrite andb_true_r.
    - rewrite andb_false_r. symmetry. apply existsb_false_elem_of. intros s Hs.
      rewrite Forall_forall in Hall. rewrite (Hall s Hs). apply andb_false_r. }
  assert (Ha : fires res action (inputConditions c) stmt && is_allow stmt
               = existsb (λ s, fires res action (inputConditions c) s
                               && is_allow s) stmts).
  { rewrite Hf. unfold is_allow. destruct He as [[-> Hall]|[-> Hall]].
    - rewrite andb_false_r. symmetry. apply existsb_false_elem_of. intros s Hs.
      rewrite Forall_forall in Hall. rewrite (Hall s Hs). apply andb_false_r.
    - rewrite andb_true_r. apply existsb_ext_in. intros s Hs.
      rewrite Forall_forall in Hall. rewrite (Hall s Hs). by rewrite andb_true_r. }
  by rewrite Hd, Ha.
Qed.

Lemma effect_cases (stmt : Statement) (stmts : list Statement) :
  Forall (λ s, effect s = effect stmt) stmts →
  effect stmt = deny ∧ Forall (λ s, effect s = deny) stmts
  ∨ effect stmt = allow ∧ Forall (λ s, effect s = allow) stmts.
Proof. intros H. destruct (effect stmt); [right|left]; done. Qed.

(** X9.  A statement can be split without changing any decision: one
    statement with the actions [l1 ++ l2] is worth the two statements
    with the actions [l1] and [l2], and one statement with the
    condition-sets [pcs1 ++ pcs2], both non-empty, is worth the two
    statements with [pcs1] and with [pcs2]. *)
Theorem can_split_statement (P1 P2 : Policy) (stmt : Statement)
        (res action : string) (c : ContextArg) :
  (∀ l1 l2,
     can (P1 ++ with_actions stmt (l1 ++ l2)%list :: P2)%list res action c
     = can (P1 ++ with_actions stmt l1 :: with_actions stmt l2 :: P2)%list
           res action c)
  ∧ (∀ pcs1 pcs2, pcs1 ≠ [] → pcs2 ≠ [] →
       can (P1 ++ with_conditions stmt (pcs1 ++ pcs2)%list :: P2)%list
           res action c
       = can (P1 ++ with_conditions stmt pcs1
                 :: with_conditions stmt pcs2 :: P2)%list res action c).
Proof.
  split.
  - intros l1 l2.
    apply (can_replace P1 P2 _ [with_actions stmt l1; with_actions stmt l2]).
    + apply effect_cases. by repeat constructor.
    + simpl. by rewrite orb_false_r, fires_with_actions_app.
  - intros pcs1 pcs2 H1 H2.
    apply (can_replace P1 P2 _
             [with_conditions stmt pcs1; with_conditions stmt pcs2]).
    + apply effect_cases. by repeat constructor.
    + simpl. by rewrite orb_false_r, fires_with_conditions_app.
Qed.

Lemma can_split_statement_witness :
  let stmt := mkStatement "POST" ["read"] allow None in
  let pc1 : AttrMap := {["status" := VString "published"]} in
  let pc2 : AttrMap := {["role" := VString "admin"]} in
  let twice := can ([] ++ with_conditions stmt [pc1]
                       :: with_conditions stmt [pc2] :: [])%list in
  can ([] ++ with_conditions stmt ([pc1] ++ [pc2])%list :: [])%list
      "POST" "read" (OneContext pc2)
  = twice "POST" "read" (OneContext pc2)
  ∧ twice "POST" "read" (OneContext pc2) = true
  ∧ twice "POST" "read" (OneContext {["role" := VString "guest"]}) = false
  ∧ can ([] ++ with_actions stmt (["read"] ++ ["update"])%list :: [])%list
        "POST" "update" NoContext
    = can ([] ++ with_actions stmt ["read"]
              :: with_actions stmt ["update"] :: [])%list
          "POST" "update" NoContext.
Proof.
  intros stmt pc1 pc2 twice.
  split; [|split; [|split]].
  - destruct (can_split_statement [] [] stmt "POST" "read" (OneContext pc2))
      as [_ H].
    apply (H [pc1] [pc2]); discriminate.
  - vm_compute. reflexivity.
  - vm_compute. reflexivity.
  - destruct (can_split_statement [] [] stmt "POST" "update" NoContext)
      as [H _].
    apply (H ["read"] ["update"]).
Defined.

(** X10.  Within a statement, [actions] and [conditions] count as sets:
    replacing a statement by one with the same resource and effect, the
    same actions and the same condition-sets, listed in another order or
    with repetitions, changes no decision. *)
Theorem can_statement_as_sets (P1 P2 : Policy) (s s' : Statement)
        (res action : string) (c : ContextArg) :
  resource s = resource s' →
  effect s = effect s' →
  (∀ a, a ∈ actions s ↔ a ∈ actions s') →
  (∀ pc, pc ∈ default [] (conditions s) ↔ pc ∈ default [] (conditions s')) →
  can (P1 ++ s :: P2)%list res action c = can (P1 ++ s' :: P2)%list res action c.
Proof.
  intros Hr He Ha Hc.
  assert (Hf : fires res action (inputConditions c) s
               = fires res action (inputConditions c) s').
  { unfold fires. rewrite Hr. f_equal; [f_equal|].
    - unfold actionMatches, includes.
      by rewrite !(existsb_same_elements _ _ _ Ha).
    - rewrite !conditionMatches_alt. f_equal.
      + unfold unconditional.
        destruct (default [] (conditions s)) as [|p l],
                 (default [] (conditions s')) as [|p' l']; try done.
        * exfalso. apply (not_elem_of_nil p'). apply Hc. apply list_elem_of_here.
        * exfalso. apply (not_elem_of_nil p). apply Hc. apply list_elem_of_here.
      + unfold anyMatch. by apply existsb_same_elements. }
  rewrite !can_spec, !existsb_app. simpl.
  unfold is_deny, is_allow. by rewrite Hf, He.
Qed.

Lemma can_statement_as_sets_witness :
  can ([] ++ mkStatement "POST" ["read"; "delete"] allow None :: [])%list
      "POST" "read" NoContext
  = can ([] ++ mkStatement "POST" ["delete"; "read"; "read"] allow (Some []) :: [])%list
        "POST" "read" NoContext.
Proof.
  apply (can_statement_as_sets [] []
           (mkStatement "POST" ["read"; "delete"] allow None)
           (mkStatement "POST" ["delete"; "read"; "read"] allow (Some []))).
  - reflexivity.
  - reflexivity.
  - intros a. rewrite !list_elem_of_In. simpl. tauto.
  - intros pc. reflexivity.
Defined.

(** ** Lists of actions *)

(** X11.  [canAll] and [canAny] read their list of actions as a set:
    two lists with the same actions, in any order and with any
    repetitions, get the same answers. *)
Theorem canAll_canAny_same_actions (P : Policy) (res : string)
        (acts acts' : list string) (c : ContextArg) :
  (∀ a, a ∈ acts ↔ a ∈ acts') →
  canAll P res acts c = canAll P res acts' c
  ∧ canAny P res acts c = canAny P res acts' c.
Proof.
  intros H. unfold canAll, canAny. split.
  - by apply forallb_same_elements.
  - by apply existsb_same_elements.
Qed.

Lemma canAll_canAny_same_actions_witness :
  canAll Samples.deny_policy "POST" ["read"; "delete"] NoContext
  = canAll Samples.deny_policy "POST" ["delete"; "read"; "delete"] NoContext
  ∧ canAny Samples.deny_policy "POST" ["read"; "delete"] NoContext
    = canAny Samples.deny_policy "POST" ["delete"; "read"; "delete"] NoContext.
Proof.
  apply (canAll_canAny_same_actions Samples.deny_policy "POST"
           ["read"; "delete"] ["delete"; "read"; "delete"] NoContext).
  intros a. rewrite !list_elem_of_In. simpl. tauto.
Defined.

(** X12.  On a non-empty list of actions [canAll] implies [canAny]; on
    the empty list it does not, [canAll] being [true] and [canAny]
    [false] there. *)
Theorem canAll_implies_canAny (P : Policy) (res : string)
        (acts : list string) (c : ContextArg) :
  acts ≠ [] →
  canAll P res acts c = true → canAny P res acts c = true.
Proof.
  intros Hne Hall. destruct acts as [|a acts]; [done|].
  unfold canAll, canAny in *. simpl in *.
  apply andb_true_iff in Hall as [Ha _]. by rewrite Ha.
Qed.

Lemma canAll_implies_canAny_witness :
  canAny Samples.deny_policy "POST" ["read"] NoContext = true.
Proof.
  apply (canAll_implies_canAny Samples.deny_policy "POST" ["read"] NoContext).
  - discriminate.
  - reflexivity.
Defined.

(** ** Blanket statements *)

(** X13.  An unconditional deny statement with the action ["*"] closes
    its resource: whatever else the policy holds, [can] refuses every
    action on that resource for every context, [canAny] refuses every
    list of actions and [canAll] every non-empty one. *)
Theorem blanket_deny (P : Policy) (stmt : Statement) :
  stmt ∈ P → effect stmt = deny → "*" ∈ actions stmt →
  unconditional stmt = true →
  ∀ c,
    (∀ action, can P (resource stmt) action c = false)
    ∧ (∀ acts, canAny P (resource stmt) acts c = false)
    ∧ (∀ acts, acts ≠ [] → canAll P (resource stmt) acts c = false).
Proof.
  intros Hin He Hstar Hu c.
  assert (Hcan : ∀ action, can P (resource stmt) action c = false).
  { intros action. apply (can_false_of_deny P _ _ _ stmt Hin He).
    apply fires_true. split; [done|]. split.
    - apply actionMatches_true. by left.
    - by rewrite conditionMatches_alt, Hu. }
  split; [done|]. split.
  - intros acts. unfold canAny. apply existsb_false_elem_of.
    intros a _. apply Hcan.
  - intros [|a acts] Hne; [done|]. unfold canAll. simpl.
    by rewrite Hcan.
Qed.

Lemma blanket_deny_witness :
  let lock := mkStatement "POST" ["*"] deny None in
  let P := [ mkStatement "POST" ["read"] allow None; lock ] in
  (∀ action, can P "POST" action NoContext = false)
  ∧ (∀ acts, canAny P "POST" acts NoContext = false)
  ∧ (∀ acts, acts ≠ [] → canAll P "POST" acts NoContext = false).
Proof.
  intros lock P.
  apply (blanket_deny P lock).
  - apply list_elem_of_In. simpl. auto.
  - reflexivity.
  - apply list_elem_of_here.
  - reflexivity.
Defined.

(** X14.  An unconditional allow statement with the action ["*"] opens
    its resource when the policy holds no deny statement on it: [can]
    grants every action for every context, [canAll] every list of
    actions and [canAny] every non-empty one. *)
Theorem blanket_allow (P : Policy) (stmt : Statement) :
  stmt ∈ P → effect stmt = allow → "*" ∈ actions stmt →
  unconditional stmt = true →
  (∀ d, d ∈ P → resource d = resource stmt → effect d = allow) →
  ∀ c,
    (∀ action, can P (resource stmt) action c = true)
    ∧ (∀ acts, canAll P (resource stmt) acts c = true)
    ∧ (∀ acts, acts ≠ [] → canAny P (resource stmt) acts c = true).
Proof.
  intros Hin He Hstar Hu Hnodeny c.
  assert (Hcan : ∀ action, can P (resource stmt) action c = true).
  { intros action. apply can_true_iff. split.
    - exists stmt. split; [done|]. split; [|done].
      apply fires_true. split; [done|]. split.
      + apply actionMatches_true. by left.
      + by rewrite conditionMatches_alt, Hu.
    - intros d Hd Hf Hdeny. apply fires_true in Hf as (Hr & _).
      rewrite (Hnodeny d Hd Hr) in Hdeny. discriminate. }
  split; [done|]. split.
  - intros acts. unfold canAll. apply forallb_forall. intros a _. apply Hcan.
  - intros [|a acts] Hne; [done|]. unfold canAny. simpl. by rewrite Hcan.
Qed.

Lemma blanket_allow_witness :
  let open := mkStatement "USER" ["*"] allow None in
  let P := [ open; mkStatement "POST" ["*"] deny None ] in
  (∀ action, can P "USER" action NoContext = true)
  ∧ (∀ acts, canAll P "USER" acts NoContext = true)
  ∧ (∀ acts, acts ≠ [] → canAny P "USER" acts NoContext = true).
Proof.
  intros open P.
  apply (blanket_allow P open).
  - apply list_elem_of_here.
  - reflexivity.
  - apply list_elem_of_here.
  - reflexivity.
  - intros d Hd Hr. apply list_elem_of_In in Hd. simpl in Hd.
    destruct Hd as [<-|[<-|[]]]; [reflexivity|]. simpl in Hr. discriminate.
Defined.

(** ** [NaN] in a condition-set *)

Lemma float_eqb_nan_r (f : float) : PrimFloat.eqb f nan = false.
Proof.
  rewrite FloatAxioms.eqb_spec. change (Prim2SF nan) with S754_nan.
  unfold SFeqb, SFcompare. by destruct (Prim2SF f).
Qed.

Lemma strict_eq_nan_r (v : Value) : strict_eq v (VNumber nan) = false.
Proof. destruct v; try done. apply float_eqb_nan_r. Qed.

Lemma strict_eq_read_nan_r (x : Any) : strict_eq_read x (VNumber nan) = false.
Proof. destruct x; [apply strict_eq_nan_r | done]. Qed.

(** X15.  Nothing is [===] to [NaN], so a condition-set that holds
    [NaN] matches no candidate; a statement all of whose condition-sets
    hold [NaN] is satisfied by no query and can be left out of the
    policy. *)
Theorem nan_condition_never_matches (stmt : Statement) (pcs : list AttrMap) :
  conditions stmt = Some pcs → pcs ≠ [] →
  (∀ pc, pc ∈ pcs → ∃ k, pc !! k = Some (VNumber nan)) →
  (∀ ics, conditionMatches stmt ics = false)
  ∧ (∀ P1 P2 res action c,
       can (P1 ++ stmt :: P2)%list res action c
       = can (P1 ++ P2)%list res action c).
Proof.
  intros Hc Hne Hnan.
  assert (Hcm : ∀ ics, conditionMatches stmt ics = false).
  { intros ics.
    assert (Hany : anyMatch pcs ics = false).
    { apply not_true_iff_false. rewrite anyMatch_true.
      intros (pc & ic & Hpc & _ & Hm). destruct (Hnan pc Hpc) as [k Hk].
      specialize (Hm k _ Hk). by rewrite strict_eq_read_nan_r in Hm. }
    destruct ics as [|ic ics].
    - by apply (conditionMatches_no_input stmt pcs).
    - by rewrite (conditionMatches_nonempty stmt pcs (ic :: ics) Hc Hne). }
  split; [done|]. intros P1 P2 res action c. apply can_skip.
  unfold fires. rewrite Hcm. apply andb_false_r.
Qed.

Lemma nan_condition_never_matches_witness :
  let pc : AttrMap := {["score" := VNumber nan]} in
  let stmt := mkStatement "POST" ["read"] deny (Some [pc]) in
  conditionMatches stmt [pc] = false.
Proof.
  intros pc stmt.
  apply (nan_condition_never_matches stmt [pc]).
  - reflexivity.
  - discriminate.
  - intros pc' Hpc'. apply list_elem_of_singleton in Hpc'. subst pc'.
    exists "score". apply lookup_singleton_eq.
Defined.
